(** * Kubelet pod-update types: a shallow embedding of
      [pkg/kubelet/types/pod_update.go] and the properties of its source
      validation, provenance, criticality and preemption functions. *)

From Stdlib Require Import ZArith String List Bool Lia.
From stdpp Require Import base option gmap strings list.

Import ListNotations.
Local Open Scope string_scope.
Local Open Scope Z_scope.
Local Open Scope list_scope.

(** ** Go runtime conventions

    A Go pointer [*T] is an [option T] whose [None] is [nil].  A function
    that dereferences a [nil] pointer panics; [go A] is the outcome of a
    call: either it returns a value or it panics. *)

Definition ptr (A : Type) : Type := option A.

Inductive go (A : Type) : Type :=
  | Return (a : A)
  | Panic.

Arguments Return {A} a.
Arguments Panic {A}.

#[global] Instance go_ret : MRet go := fun A a => Return a.

#[global] Instance go_bind : MBind go := fun A B k m =>
  match m with
  | Return a => k a
  | Panic => Panic
  end.

(** [deref p] is the access [p.field] up to the projection: it panics on
    [nil]. *)
Definition deref {A : Type} (p : ptr A) : go A :=
  match p with
  | Some a => Return a
  | None => Panic
  end.

(** A Go [error] built by [fmt.Errorf format arg]: the format string and
    the value it is applied to; [nil] is [None] of [option error]. *)
Inductive error : Type :=
  | Errorf (format : string) (arg : string).

(** ** Constants of the package *)

Definition ConfigSourceAnnotationKey : string := "kubernetes.io/config.source".
Definition ConfigFirstSeenAnnotationKey : string := "kubernetes.io/config.seen".
Definition ConfigHashAnnotationKey : string := "kubernetes.io/config.hash".

Definition FileSource : string := "file".
Definition HTTPSource : string := "http".
Definition ApiserverSource : string := "api".
Definition AllSource : string := "*".

(** ** The part of [v1.Pod] that the package reads

    [Annotations] is a Go map: [None] is the [nil] map, [Some m] an
    allocated one.  [Priority] is a [*int32]: [None] is [nil]. *)

Record PodSpec : Type := mkPodSpec {
  Priority : ptr Z;
  PriorityClassName : string
}.

Record Pod : Type := mkPod {
  UID : string;
  Annotations : option (gmap string string);
  Spec : PodSpec
}.

(** ** [GetValidatedSources]

    The [for ... range] loop, with [validated] as its accumulator.  Each
    [return] inside the [switch] leaves the loop at once. *)

Fixpoint GetValidatedSources_loop (validated sources : list string)
  : list string * option error :=
  match sources with
  | [] => (validated, None)
  | source :: rest =>
      if String.eqb source AllSource then
        ([FileSource; HTTPSource; ApiserverSource], None)
      else if String.eqb source FileSource
              || String.eqb source HTTPSource
              || String.eqb source ApiserverSource then
        GetValidatedSources_loop (validated ++ [source]) rest
      else if String.eqb source "" then
        GetValidatedSources_loop validated rest
      else
        ([], Some (Errorf "unknown pod source %q" source))
  end.

Definition GetValidatedSources (sources : list string)
  : list string * option error :=
  GetValidatedSources_loop [] sources.

(** ** [GetPodSource] *)

Definition GetPodSource (pod : ptr Pod) : go (string * option error) :=
  p ← deref pod;
  match Annotations p with
  | Some annotations =>
      match annotations !! ConfigSourceAnnotationKey with
      | Some source => Return (source, None)
      | None => Return ("", Some (Errorf "cannot get source of pod %q" (UID p)))
      end
  | None => Return ("", Some (Errorf "cannot get source of pod %q" (UID p)))
  end.

(** ** [SyncPodType] and its [String] method

    [SyncPodType] is a Go [int]; the four constants are [iota] values. *)

Definition SyncPodType : Type := Z.

Definition SyncPodSync : SyncPodType := 0.
Definition SyncPodUpdate : SyncPodType := 1.
Definition SyncPodCreate : SyncPodType := 2.
Definition SyncPodKill : SyncPodType := 3.

Definition SyncPodType_String (sp : SyncPodType) : string :=
  if Z.eqb sp SyncPodCreate then "create"
  else if Z.eqb sp SyncPodUpdate then "update"
  else if Z.eqb sp SyncPodSync then "sync"
  else if Z.eqb sp SyncPodKill then "kill"
  else "unknown".

(** ** Provenance, criticality and preemption

    Three constants come from other packages: the mirror annotation key
    ([v1.MirrorPodAnnotationKey]), the critical priority
    ([scheduling.SystemCriticalPriority]) and the node-critical class name
    ([scheduling.SystemNodeCritical]).  Their values are not part of this
    package; the functions read them from an [Imported] instance. *)

Class Imported : Type := {
  ConfigMirrorAnnotationKey : string;
  SystemCriticalPriority : Z;
  SystemNodeCritical : string
}.

Section Policy.

Context `{consts : Imported}.

Definition IsMirrorPod (pod : ptr Pod) : go bool :=
  p ← deref pod;
  match Annotations p with
  | None => Return false
  | Some annotations =>
      match annotations !! ConfigMirrorAnnotationKey with
      | Some _ => Return true
      | None => Return false
      end
  end.

Definition IsStaticPod (pod : ptr Pod) : go bool :=
  '(source, err) ← GetPodSource pod;
  Return (match err with None => true | Some _ => false end
          && negb (String.eqb source ApiserverSource)).

Definition IsCriticalPodBasedOnPriority (priority : Z) : bool :=
  priority >=? SystemCriticalPriority.

Definition IsCriticalPod (pod : ptr Pod) : go bool :=
  static ← IsStaticPod pod;
  if (static : bool) then Return true else
  mirror ← IsMirrorPod pod;
  if (mirror : bool) then Return true else
  p ← deref pod;
  match Priority (Spec p) with
  | Some priority =>
      if IsCriticalPodBasedOnPriority priority then Return true
      else Return false
  | None => Return false
  end.

(** [&&] evaluates its right operand only when the left one is [true]. *)
Definition Preemptable (preemptor preemptee : ptr Pod) : go bool :=
  c1 ← IsCriticalPod preemptor;
  guard ← (if (c1 : bool) then c2 ← IsCriticalPod preemptee; Return (negb c2)
           else Return false);
  if (guard : bool) then Return true else
  match preemptor, preemptee with
  | Some r, Some e =>
      match Priority (Spec r), Priority (Spec e) with
      | Some pr, Some pe => Return (pr >? pe)
      | _, _ => Return false
      end
  | _, _ => Return false
  end.

Definition IsNodeCriticalPod (pod : ptr Pod) : go bool :=
  c ← IsCriticalPod pod;
  if (c : bool) then
    p ← deref pod;
    Return (String.eqb (PriorityClassName (Spec p)) SystemNodeCritical)
  else Return false.

End Policy.

(** ** Vocabulary of the statements about source names *)

(** The concrete source names, the ones the second [case] lists. *)
Definition concrete_source (s : string) : Prop :=
  s = FileSource \/ s = HTTPSource \/ s = ApiserverSource.

(** A name the loop passes over without leaving: concrete, or empty. *)
Definition passed_source (s : string) : Prop :=
  concrete_source s \/ s = "".

(** A name that reaches the [default] branch. *)
Definition unknown_source (s : string) : Prop :=
  s <> AllSource /\ ~ concrete_source s /\ s <> "".

Definition all_sources : list string :=
  [FileSource; HTTPSource; ApiserverSource].

Definition unknown_source_error (s : string) : error :=
  Errorf "unknown pod source %q" s.

(** ** Statements of the specification that the code does not satisfy,
       as predicates on an input *)

(** "Every input containing the wildcard yields the three sources." *)
Definition wildcard_dominates (sources : list string) : Prop :=
  In AllSource sources ->
  GetValidatedSources sources = (all_sources, None).

(** "The call fails at the first unknown element of the input." *)
Definition fails_at_first_unknown (sources : list string) : Prop :=
  forall pre s rest,
    sources = pre ++ s :: rest ->
    Forall (fun x => ~ unknown_source x) pre ->
    unknown_source s ->
    GetValidatedSources sources = ([], Some (unknown_source_error s)).


(** ** Vocabulary of the statements about pods

    The value stored under the source key, when the map is allocated and
    has the key. *)
Definition source_annotation (p : Pod) : option string :=
  match Annotations p with
  | Some annotations => annotations !! ConfigSourceAnnotationKey
  | None => None
  end.

Definition source_error (p : Pod) : error :=
  Errorf "cannot get source of pod %q" (UID p).

Definition static_pod (p : Pod) : bool :=
  match source_annotation p with
  | Some source => negb (String.eqb source ApiserverSource)
  | None => false
  end.

Section PolicyVocabulary.

Context `{consts : Imported}.

Definition mirror_annotation (p : Pod) : option string :=
  match Annotations p with
  | Some annotations => annotations !! ConfigMirrorAnnotationKey
  | None => None
  end.

Definition mirror_pod (p : Pod) : bool :=
  match mirror_annotation p with
  | Some _ => true
  | None => false
  end.

Definition priority_critical (p : Pod) : bool :=
  match Priority (Spec p) with
  | Some priority => IsCriticalPodBasedOnPriority priority
  | None => false
  end.

Definition critical_pod (p : Pod) : bool :=
  static_pod p || mirror_pod p || priority_critical p.

Definition compare_priority (r e : Pod) : bool :=
  match Priority (Spec r), Priority (Spec e) with
  | Some pr, Some pe => pr >? pe
  | _, _ => false
  end.

(** A statement of the specification that the code does not satisfy:
    "[Preemptable a b] and [Preemptable b a] are not both true." *)
Definition not_both_preemptable (a b : Pod) : Prop :=
  ~ (Preemptable (Some a) (Some b) = Return true /\
     Preemptable (Some b) (Some a) = Return true).

End PolicyVocabulary.

(** ** Sample values

    An instance of the imported constants, for evaluating the functions:
    the class name is the one the specification names; the mirror key and
    the critical priority are those of upstream Kubernetes. *)

Definition kubernetes : Imported := {|
  ConfigMirrorAnnotationKey := "kubernetes.io/config.mirror";
  SystemCriticalPriority := 2000000000;
  SystemNodeCritical := "system-node-critical"
|}.

(** A pod read from a manifest file, with the default priority. *)
Definition file_pod : Pod := {|
  UID := "etcd-node1";
  Annotations := Some {[ConfigSourceAnnotationKey := "file"]};
  Spec := {| Priority := Some 0; PriorityClassName := "" |}
|}.

(** A pod of the API server with a user-defined priority. *)
Definition api_pod : Pod := {|
  UID := "web-7d4b";
  Annotations := Some {[ConfigSourceAnnotationKey := "api"]};
  Spec := {| Priority := Some 100; PriorityClassName := "batch" |}
|}.

(** The mirror of a static pod, as the API server holds it. *)
Definition mirror_of_file_pod : Pod := {|
  UID := "etcd-node1-mirror";
  Annotations :=
    Some (<[@ConfigMirrorAnnotationKey kubernetes := "5f3a"]>
            {[ConfigSourceAnnotationKey := "api"]});
  Spec := {| Priority := Some 0; PriorityClassName := "" |}
|}.

(** A pod with no annotations map and no priority. *)
Definition bare_pod : Pod := {|
  UID := "bare";
  Annotations := None;
  Spec := {| Priority := None; PriorityClassName := "" |}
|}.

(** A pod whose source annotation is not a source name. *)
Definition odd_source_pod (source : string) : Pod := {|
  UID := "odd";
  Annotations := Some {[ConfigSourceAnnotationKey := source]};
  Spec := {| Priority := None; PriorityClassName := "" |}
|}.

(** A pod of the API server in the node-critical class. *)
Definition node_critical_pod : Pod := {|
  UID := "kube-proxy-x2x";
  Annotations := Some {[ConfigSourceAnnotationKey := "api"]};
  Spec := {| Priority := Some 2000001000;
             PriorityClassName := "system-node-critical" |}
|}.

(** ** [IsRestartableInitContainer]

    The part of [v1.Container] that the function reads: [RestartPolicy] is
    a pointer to a [ContainerRestartPolicy], a string type.  The constant
    [v1.ContainerRestartPolicyAlways] comes from another package and is the
    variable of the section. *)

Record Container : Type := mkContainer {
  RestartPolicy : ptr string
}.

Section InitContainers.

Variable ContainerRestartPolicyAlways : string.

Definition IsRestartableInitContainer (initContainer : ptr Container)
  : go bool :=
  c ← deref initContainer;
  match RestartPolicy c with
  | None => Return false
  | Some policy => Return (String.eqb policy ContainerRestartPolicyAlways)
  end.

End InitContainers.

(** ** Vocabulary of the further statements *)

(** The input without its empty strings, in the same order. *)
Definition non_empty_sources (sources : list string) : list string :=
  List.filter (fun s => negb (String.eqb s "")) sources.

(** The pod [p] with another annotations map, and with another priority. *)
Definition with_annotations (p : Pod) (m : option (gmap string string)) : Pod :=
  {| UID := UID p; Annotations := m; Spec := Spec p |}.

Definition with_priority (p : Pod) (priority : ptr Z) : Pod :=
  {| UID := UID p;
     Annotations := Annotations p;
     Spec := {| Priority := priority;
                PriorityClassName := PriorityClassName (Spec p) |} |}.

(** ** The loop of [GetValidatedSources], one element at a time *)

Lemma loop_wildcard validated rest :
  GetValidatedSources_loop validated (AllSource :: rest) = (all_sources, None).
Proof. reflexivity. Qed.

Lemma loop_concrete validated s rest :
  concrete_source s ->
  GetValidatedSources_loop validated (s :: rest) =
  GetValidatedSources_loop (validated ++ [s]) rest.
Proof. intros [-> | [-> | ->]]; reflexivity. Qed.

Lemma loop_empty validated rest :
  GetValidatedSources_loop validated ("" :: rest) =
  GetValidatedSources_loop validated rest.
Proof. reflexivity. Qed.

Lemma loop_unknown validated s rest :
  unknown_source s ->
  GetValidatedSources_loop validated (s :: rest) =
  ([], Some (unknown_source_error s)).
Proof.
  intros (Hall & Hconc & Hempty). cbn [GetValidatedSources_loop].
  destruct (String.eqb_spec s AllSource) as [? | _]; [contradiction |].
  destruct (String.eqb_spec s FileSource) as [E | _];
    [exfalso; apply Hconc; left; exact E |].
  destruct (String.eqb_spec s HTTPSource) as [E | _];
    [exfalso; apply Hconc; right; left; exact E |].
  destruct (String.eqb_spec s ApiserverSource) as [E | _];
    [exfalso; apply Hconc; right; right; exact E |].
  destruct (String.eqb_spec s "") as [? | _]; [contradiction |].
  reflexivity.
Qed.

(** Every source name falls in exactly one branch of the [switch]. *)
Lemma source_cases (s : string) :
  s = AllSource \/ concrete_source s \/ s = "" \/ unknown_source s.
Proof.
  destruct (String.eqb_spec s AllSource); [now left |].
  destruct (String.eqb_spec s FileSource); [right; left; now left |].
  destruct (String.eqb_spec s HTTPSource); [right; left; right; now left |].
  destruct (String.eqb_spec s ApiserverSource);
    [right; left; right; now right |].
  destruct (String.eqb_spec s ""); [right; right; now left |].
  right; right; right. repeat split; try assumption.
  intros [? | [? | ?]]; contradiction.
Qed.

(** A prefix of passed names only moves the accumulator. *)
Lemma loop_passed_prefix pre :
  Forall passed_source pre ->
  forall validated rest, exists validated',
    GetValidatedSources_loop validated (pre ++ rest) =
    GetValidatedSources_loop validated' rest.
Proof.
  induction 1 as [| s pre [Hs | ->] _ IH]; intros validated rest.
  - exists validated. reflexivity.
  - destruct (IH (validated ++ [s]) rest) as [v Hv].
    exists v. rewrite <- Hv. apply (loop_concrete validated s (pre ++ rest) Hs).
  - destruct (IH validated rest) as [v Hv]. exists v. exact Hv.
Qed.

(** A list of concrete names is appended to the accumulator as it is. *)
Lemma loop_all_concrete sources :
  Forall concrete_source sources ->
  forall validated,
    GetValidatedSources_loop validated sources = (validated ++ sources, None).
Proof.
  induction 1 as [| s l Hs _ IH]; intros validated.
  - cbn. now rewrite app_nil_r.
  - rewrite (loop_concrete validated s l Hs), IH, <- app_assoc. reflexivity.
Qed.

(** Removing an empty string anywhere leaves the result as it was. *)
Lemma loop_drop_empty pre :
  forall validated rest,
    GetValidatedSources_loop validated (pre ++ "" :: rest) =
    GetValidatedSources_loop validated (pre ++ rest).
Proof.
  induction pre as [| s pre IH]; intros validated rest.
  - reflexivity.
  - cbn [app GetValidatedSources_loop].
    destruct (String.eqb s AllSource); [reflexivity |].
    destruct (String.eqb s FileSource || String.eqb s HTTPSource
              || String.eqb s ApiserverSource); [apply IH |].
    destruct (String.eqb s ""); [apply IH | reflexivity].
Qed.

(** Classifying a literal source name. *)
Ltac classify_source :=
  unfold unknown_source, passed_source, concrete_source,
    AllSource, FileSource, HTTPSource, ApiserverSource;
  intuition (discriminate || congruence).

Ltac classify_sources :=
  repeat (apply Forall_cons_2; [classify_source |]); apply Forall_nil_2.

(** A wildcard that the loop reaches ends it with the three sources. *)
Lemma loop_reaches_wildcard pre :
  Forall (fun s => s = AllSource \/ passed_source s) pre ->
  forall validated rest,
    GetValidatedSources_loop validated (pre ++ AllSource :: rest) =
    (all_sources, None).
Proof.
  induction 1 as [| s pre [-> | [Hs | ->]] _ IH]; intros validated rest.
  - reflexivity.
  - reflexivity.
  - cbn [app]. rewrite (loop_concrete validated s _ Hs). apply IH.
  - cbn [app]. rewrite loop_empty. apply IH.
Qed.

(** An unknown name that the loop reaches ends it with the error. *)
Lemma loop_reaches_unknown pre s :
  Forall passed_source pre -> unknown_source s ->
  forall validated rest,
    GetValidatedSources_loop validated (pre ++ s :: rest) =
    ([], Some (unknown_source_error s)).
Proof.
  intros Hpre Hs validated rest.
  destruct (loop_passed_prefix pre Hpre validated (s :: rest)) as [v ->].
  apply loop_unknown, Hs.
Qed.

(** ** Source validation: the claims *)

(** C2, as stated, fails: an unknown name in front of the wildcard makes
    the call return the error before the wildcard is read. *)
Lemma wildcard_after_unknown_is_not_read :
  ~ wildcard_dominates ["bogus"; AllSource].
Proof.
  unfold wildcard_dominates. intros H.
  assert (Hin : In AllSource ["bogus"; AllSource]) by (right; left; reflexivity).
  specialize (H Hin). vm_compute in H. discriminate H.
Qed.

(** C2, amended: when the input contains the wildcard and every element in
    front of it is a wildcard, a concrete source name or the empty string,
    [GetValidatedSources] returns exactly [file; http; api] and no error,
    whatever follows the wildcard. *)
Theorem GetValidatedSources_wildcard (pre rest : list string) :
  Forall (fun s => s = AllSource \/ passed_source s) pre ->
  GetValidatedSources (pre ++ AllSource :: rest) =
  ([FileSource; HTTPSource; ApiserverSource], None).
Proof. intros Hpre. apply (loop_reaches_wildcard pre Hpre). Qed.

Lemma GetValidatedSources_wildcard_witness :
  Forall (fun s => s = AllSource \/ passed_source s) ["http"; ""; "api"] /\
  GetValidatedSources (["http"; ""; "api"] ++ AllSource :: ["bogus"; "file"]) =
  ([FileSource; HTTPSource; ApiserverSource], None).
Proof.
  split; [classify_sources |].
  apply (GetValidatedSources_wildcard ["http"; ""; "api"] ["bogus"; "file"]).
  classify_sources.
Defined.

(** C6: an input whose elements are all among "file", "http" and "api" is
    returned unchanged, in the same order and with its duplicates, and
    without an error. *)
Theorem GetValidatedSources_concrete_unchanged (sources : list string) :
  Forall concrete_source sources ->
  GetValidatedSources sources = (sources, None).
Proof. intros H. apply (loop_all_concrete sources H []). Qed.

Lemma GetValidatedSources_concrete_unchanged_witness :
  Forall concrete_source ["api"; "file"; "api"; "http"] /\
  GetValidatedSources ["api"; "file"; "api"; "http"] =
  (["api"; "file"; "api"; "http"], None).
Proof.
  split; [classify_sources |].
  apply (GetValidatedSources_concrete_unchanged ["api"; "file"; "api"; "http"]).
  classify_sources.
Defined.

(** C7, as stated, fails: an unknown name behind a wildcard is never read,
    and the call succeeds. *)
Lemma unknown_after_wildcard_is_not_read :
  ~ fails_at_first_unknown [AllSource; "bogus"].
Proof.
  unfold fails_at_first_unknown. intros H.
  specialize (H [AllSource] "bogus" [] eq_refl).
  assert (Hpre : Forall (fun x => ~ unknown_source x) [AllSource])
    by classify_sources.
  assert (Hs : unknown_source "bogus") by classify_source.
  specialize (H Hpre Hs). vm_compute in H. discriminate H.
Qed.

(** C7, amended: an empty string anywhere in the input changes nothing;
    an unknown name, when every element in front of it is a concrete
    source name or the empty string (so no wildcard precedes it), makes
    the call return the empty sequence together with the error that
    carries that name; and [GetValidatedSources ["bogus"]] fails with the
    empty sequence. *)
Theorem GetValidatedSources_skip_and_fail (pre rest : list string) (s : string) :
  GetValidatedSources (pre ++ "" :: rest) = GetValidatedSources (pre ++ rest) /\
  (Forall passed_source pre -> unknown_source s ->
   GetValidatedSources (pre ++ s :: rest) =
   ([], Some (Errorf "unknown pod source %q" s))) /\
  GetValidatedSources ["bogus"] =
  ([], Some (Errorf "unknown pod source %q" "bogus")).
Proof.
  split; [apply loop_drop_empty |].
  split; [| reflexivity].
  intros Hpre Hs. apply (loop_reaches_unknown pre s Hpre Hs).
Qed.

Lemma GetValidatedSources_skip_and_fail_witness :
  Forall passed_source ["file"; ""; "file"] /\ unknown_source "ftp" /\
  GetValidatedSources (["file"; ""; "file"] ++ "ftp" :: [AllSource]) =
  ([], Some (Errorf "unknown pod source %q" "ftp")).
Proof.
  split; [classify_sources |]. split; [classify_source |].
  apply (proj1 (proj2
    (GetValidatedSources_skip_and_fail ["file"; ""; "file"] [AllSource] "ftp")));
    [classify_sources | classify_source].
Defined.

(** ** Sync intent *)

(** C10: the rendering of a [SyncPodType] is defined on every value: the
    four constants give "sync", "update", "create" and "kill", and every
    other value gives "unknown". *)
Theorem SyncPodType_String_total (sp : SyncPodType) :
  SyncPodType_String SyncPodSync = "sync" /\
  SyncPodType_String SyncPodUpdate = "update" /\
  SyncPodType_String SyncPodCreate = "create" /\
  SyncPodType_String SyncPodKill = "kill" /\
  (sp <> SyncPodSync -> sp <> SyncPodUpdate ->
   sp <> SyncPodCreate -> sp <> SyncPodKill ->
   SyncPodType_String sp = "unknown") /\
  In (SyncPodType_String sp) ["sync"; "update"; "create"; "kill"; "unknown"].
Proof.
  repeat (split; [reflexivity |]). unfold SyncPodType_String. split.
  - intros H0 H1 H2 H3.
    destruct (Z.eqb_spec sp SyncPodCreate); [contradiction |].
    destruct (Z.eqb_spec sp SyncPodUpdate); [contradiction |].
    destruct (Z.eqb_spec sp SyncPodSync); [contradiction |].
    destruct (Z.eqb_spec sp SyncPodKill); [contradiction |].
    reflexivity.
  - destruct (sp =? SyncPodCreate); [cbn; tauto |].
    destruct (sp =? SyncPodUpdate); [cbn; tauto |].
    destruct (sp =? SyncPodSync); [cbn; tauto |].
    destruct (sp =? SyncPodKill); cbn; tauto.
Qed.

Lemma SyncPodType_String_total_witness :
  SyncPodType_String 4 = "unknown" /\ SyncPodType_String (-1) = "unknown".
Proof.
  split.
  - apply (proj1 (proj2 (proj2 (proj2 (proj2 (SyncPodType_String_total 4))))));
      unfold SyncPodSync, SyncPodUpdate, SyncPodCreate, SyncPodKill; lia.
  - apply (proj1 (proj2 (proj2 (proj2 (proj2 (SyncPodType_String_total (-1)))))));
      unfold SyncPodSync, SyncPodUpdate, SyncPodCreate, SyncPodKill; lia.
Defined.

(** ** What the calls return on a pod that is not [nil] *)

Lemma GetPodSource_Some (p : Pod) :
  GetPodSource (Some p) =
  Return (match source_annotation p with
          | Some source => (source, None)
          | None => ("", Some (source_error p))
          end).
Proof.
  unfold GetPodSource, source_annotation. cbn.
  destruct (Annotations p) as [m |]; [| reflexivity].
  destruct (m !! ConfigSourceAnnotationKey); reflexivity.
Qed.

Lemma IsStaticPod_Some (p : Pod) :
  IsStaticPod (Some p) = Return (static_pod p).
Proof.
  unfold IsStaticPod, static_pod. rewrite GetPodSource_Some.
  destruct (source_annotation p); reflexivity.
Qed.

Section PolicyFacts.

Context `{consts : Imported}.

Lemma IsMirrorPod_Some (p : Pod) :
  IsMirrorPod (Some p) = Return (mirror_pod p).
Proof.
  unfold IsMirrorPod, mirror_pod, mirror_annotation. cbn.
  destruct (Annotations p) as [m |]; [| reflexivity].
  destruct (m !! ConfigMirrorAnnotationKey); reflexivity.
Qed.

Lemma IsCriticalPod_Some (p : Pod) :
  IsCriticalPod (Some p) = Return (critical_pod p).
Proof.
  unfold IsCriticalPod, critical_pod, priority_critical.
  rewrite IsStaticPod_Some, IsMirrorPod_Some. cbn.
  destruct (static_pod p); [reflexivity |].
  destruct (mirror_pod p); [reflexivity |]. cbn.
  destruct (Priority (Spec p)) as [priority |]; [| reflexivity].
  destruct (IsCriticalPodBasedOnPriority priority); reflexivity.
Qed.

Lemma Preemptable_Some (r e : Pod) :
  Preemptable (Some r) (Some e) =
  Return (if critical_pod r && negb (critical_pod e) then true
          else compare_priority r e).
Proof.
  unfold Preemptable, compare_priority.
  rewrite !IsCriticalPod_Some. cbn.
  destruct (critical_pod r); cbn.
  - destruct (critical_pod e); cbn; [| reflexivity].
    destruct (Priority (Spec r)), (Priority (Spec e)); reflexivity.
  - destruct (Priority (Spec r)), (Priority (Spec e)); reflexivity.
Qed.

Lemma IsNodeCriticalPod_Some (p : Pod) :
  IsNodeCriticalPod (Some p) =
  Return (critical_pod p
          && String.eqb (PriorityClassName (Spec p)) SystemNodeCritical).
Proof.
  unfold IsNodeCriticalPod. rewrite IsCriticalPod_Some. cbn.
  destruct (critical_pod p); reflexivity.
Qed.

End PolicyFacts.

(** ** Go comparisons as decisions *)

Lemma gtb_decide (x y : Z) : (x >? y) = bool_decide (y < x).
Proof.
  rewrite Z.gtb_ltb. destruct (Z.ltb_spec y x).
  - now rewrite bool_decide_eq_true_2.
  - rewrite bool_decide_eq_false_2; [reflexivity | lia].
Qed.

Lemma geb_decide (x y : Z) : (x >=? y) = bool_decide (y <= x).
Proof.
  rewrite Z.geb_leb. destruct (Z.leb_spec y x).
  - now rewrite bool_decide_eq_true_2.
  - rewrite bool_decide_eq_false_2; [reflexivity | lia].
Qed.

Lemma eqb_decide (s t : string) : String.eqb s t = bool_decide (s = t).
Proof.
  destruct (String.eqb_spec s t).
  - now rewrite bool_decide_eq_true_2.
  - now rewrite bool_decide_eq_false_2.
Qed.

(** A longer string differs from its tail. *)
Lemma String_cons_neq (c : Ascii.ascii) (s : string) : String c s <> s.
Proof.
  revert c. induction s as [| d s IH]; intros c E; [discriminate |].
  injection E as _ E. exact (IH d E).
Qed.

(** ** Provenance: the claims *)

(** C5: [IsStaticPod] returns [true] exactly when [GetPodSource] returns a
    source with a [nil] error and that source is not "api"; when the
    annotations map is [nil] or has no source key, [GetPodSource] returns
    an error and [IsStaticPod] returns [false], with no error of its own. *)
Theorem IsStaticPod_iff_source_not_api (p : Pod) :
  exists static : bool,
    IsStaticPod (Some p) = Return static /\
    (static = true <->
     exists source,
       GetPodSource (Some p) = Return (source, None) /\
       source <> ApiserverSource) /\
    ((Annotations p = None \/
      exists annotations,
        Annotations p = Some annotations /\
        annotations !! ConfigSourceAnnotationKey = None) ->
     GetPodSource (Some p) =
       Return ("", Some (Errorf "cannot get source of pod %q" (UID p))) /\
     static = false).
Proof.
  exists (static_pod p). rewrite IsStaticPod_Some, GetPodSource_Some.
  split; [reflexivity |]. unfold static_pod, source_annotation. split.
  - destruct (Annotations p) as [m |].
    + destruct (m !! ConfigSourceAnnotationKey) as [source |].
      * rewrite eqb_decide. split.
        -- intros E. exists source. split; [reflexivity |].
           intros ->. rewrite bool_decide_eq_true_2 in E by reflexivity.
           discriminate E.
        -- intros (s & E & Hne). injection E as <-.
           now rewrite bool_decide_eq_false_2.
      * split; [discriminate |]. intros (s & E & _). discriminate E.
    + split; [discriminate |]. intros (s & E & _). discriminate E.
  - intros [-> | (m & -> & ->)]; split; reflexivity.
Qed.

(** C8: a pod whose source annotation is present with any value other
    than "api" is static, whether or not that value is a source name. *)
Theorem IsStaticPod_any_other_value
    (p : Pod) (annotations : gmap string string) (source : string) :
  Annotations p = Some annotations ->
  annotations !! ConfigSourceAnnotationKey = Some source ->
  source <> ApiserverSource ->
  IsStaticPod (Some p) = Return true.
Proof.
  intros Ha Hs Hne. rewrite IsStaticPod_Some.
  unfold static_pod, source_annotation. rewrite Ha, Hs, eqb_decide.
  now rewrite bool_decide_eq_false_2.
Qed.

(** Case analysis on the two criticalities and the two priorities. *)
Ltac split_cases :=
  repeat match goal with
         | |- _ /\ _ => split
         | |- _ <-> _ => split
         | |- ~ _ => intro
         | |- _ -> _ => intro
         | H : _ /\ _ |- _ => destruct H
         | H : _ \/ _ |- _ => destruct H
         | H : exists _, _ |- _ => destruct H
         | H : Some _ = Some _ |- _ => injection H as H; subst
         end.

Ltac close_case :=
  first
    [ discriminate
    | lia
    | reflexivity
    | solve [auto]
    | solve [right; right; f_equal; lia]
    | solve [eexists _, _; split; [reflexivity |]; split; [reflexivity |];
             first [ left; repeat split; (reflexivity || lia)
                   | right; repeat split; (reflexivity || lia) ]] ].

(** ** Criticality and preemption: the claims *)

Section PolicyClaims.

Context `{consts : Imported}.

Lemma critical_pod_mirror (p : Pod) (v : string) :
  mirror_annotation p = Some v -> critical_pod p = true.
Proof.
  intros E. unfold critical_pod, mirror_pod. rewrite E.
  now rewrite orb_true_r.
Qed.

(** C4: [IsCriticalPod] returns the disjunction of [IsStaticPod],
    [IsMirrorPod] and "the priority is set and at least the critical
    priority"; a pod that carries the mirror annotation, with any value,
    and priority 0 is critical, although priority 0 alone is not when the
    critical priority is positive. *)
Theorem IsCriticalPod_disjunction (p : Pod) :
  exists static mirror : bool,
    IsStaticPod (Some p) = Return static /\
    IsMirrorPod (Some p) = Return mirror /\
    IsCriticalPod (Some p) =
      Return (static || mirror ||
              match Priority (Spec p) with
              | Some priority => bool_decide (SystemCriticalPriority <= priority)
              | None => false
              end) /\
    (forall annotations v,
       Annotations p = Some annotations ->
       annotations !! ConfigMirrorAnnotationKey = Some v ->
       Priority (Spec p) = Some 0 ->
       IsCriticalPod (Some p) = Return true) /\
    (0 < SystemCriticalPriority -> IsCriticalPodBasedOnPriority 0 = false).
Proof.
  exists (static_pod p), (mirror_pod p).
  rewrite IsStaticPod_Some, IsMirrorPod_Some, IsCriticalPod_Some.
  split; [reflexivity |]. split; [reflexivity |]. split; [| split].
  - unfold critical_pod, priority_critical, IsCriticalPodBasedOnPriority.
    destruct (Priority (Spec p)) as [priority |]; [| reflexivity].
    now rewrite geb_decide.
  - intros m v Ha Hv _. f_equal. apply (critical_pod_mirror p v).
    unfold mirror_annotation. now rewrite Ha.
  - intros Hpos. unfold IsCriticalPodBasedOnPriority.
    rewrite geb_decide. apply bool_decide_eq_false_2. lia.
Qed.

(** C3: on two pods, [Preemptable] returns [true] when the preemptor is
    critical and the preemptee is not; otherwise, when both priorities are
    set, it returns whether the preemptor's is strictly greater; otherwise
    it returns [false]. *)
Theorem Preemptable_decision (preemptor preemptee : Pod) :
  exists c1 c2 : bool,
    IsCriticalPod (Some preemptor) = Return c1 /\
    IsCriticalPod (Some preemptee) = Return c2 /\
    Preemptable (Some preemptor) (Some preemptee) =
      Return (if c1 && negb c2 then true
              else match Priority (Spec preemptor),
                         Priority (Spec preemptee) with
                   | Some pr, Some pe => bool_decide (pe < pr)
                   | _, _ => false
                   end).
Proof.
  exists (critical_pod preemptor), (critical_pod preemptee).
  rewrite !IsCriticalPod_Some, Preemptable_Some.
  split; [reflexivity |]. split; [reflexivity |].
  unfold compare_priority.
  destruct (Priority (Spec preemptor)) as [pr |],
           (Priority (Spec preemptee)) as [pe |];
    rewrite ?gtb_decide; reflexivity.
Qed.

(** C9: [IsNodeCriticalPod] returns the conjunction of [IsCriticalPod] and
    "the priority class name is the node-critical one"; so a node-critical
    pod is critical, and some critical pod is not node-critical. *)
Theorem IsNodeCriticalPod_conjunction (p : Pod) :
  exists critical : bool,
    IsCriticalPod (Some p) = Return critical /\
    IsNodeCriticalPod (Some p) =
      Return (critical &&
              bool_decide (PriorityClassName (Spec p) = SystemNodeCritical)) /\
    (IsNodeCriticalPod (Some p) = Return true ->
     IsCriticalPod (Some p) = Return true) /\
    (exists q,
       IsCriticalPod (Some q) = Return true /\
       IsNodeCriticalPod (Some q) = Return false).
Proof.
  exists (critical_pod p).
  rewrite IsCriticalPod_Some, IsNodeCriticalPod_Some, eqb_decide.
  split; [reflexivity |]. split; [reflexivity |]. split.
  - intros E. injection E as E. apply andb_prop in E as [-> _]. reflexivity.
  - pose (other := String.append "x" SystemNodeCritical).
    pose (q := mkPod "" (Some {[ConfigSourceAnnotationKey := FileSource]})
                     (mkPodSpec None other)).
    assert (Hq : critical_pod q = true).
    { unfold critical_pod, static_pod, source_annotation. subst q.
      cbn [Annotations]. now rewrite lookup_singleton_eq. }
    exists q. rewrite IsCriticalPod_Some, IsNodeCriticalPod_Some, Hq.
    split; [reflexivity |]. cbn. rewrite eqb_decide.
    rewrite bool_decide_eq_false_2; [reflexivity |]. apply String_cons_neq.
Qed.

(** C1, amended: [Preemptable a b] and [Preemptable b a] are both true
    exactly when one pod is critical, the other is not, both priorities are
    set and the priority of the pod that is not critical is strictly
    greater; so they are never both true when the pods are both critical or
    both not critical, or when a priority is not set.  Both are false
    exactly when the pods agree on criticality and a priority is not set
    or the two priorities are equal. *)
Theorem Preemptable_both_ways (a b : Pod) :
  exists ca cb ab ba : bool,
    IsCriticalPod (Some a) = Return ca /\
    IsCriticalPod (Some b) = Return cb /\
    Preemptable (Some a) (Some b) = Return ab /\
    Preemptable (Some b) (Some a) = Return ba /\
    (ab = true /\ ba = true <->
     exists pa pb,
       Priority (Spec a) = Some pa /\ Priority (Spec b) = Some pb /\
       (ca = true /\ cb = false /\ pa < pb \/
        ca = false /\ cb = true /\ pb < pa)) /\
    (ca = cb \/ Priority (Spec a) = None \/ Priority (Spec b) = None ->
     ~ (ab = true /\ ba = true)) /\
    (ab = false /\ ba = false <->
     ca = cb /\
     (Priority (Spec a) = None \/ Priority (Spec b) = None \/
      Priority (Spec a) = Priority (Spec b))).
Proof.
  exists (critical_pod a), (critical_pod b).
  eexists. eexists.
  rewrite !IsCriticalPod_Some, !Preemptable_Some.
  split; [reflexivity |]. split; [reflexivity |].
  split; [reflexivity |]. split; [reflexivity |].
  unfold compare_priority.
  destruct (critical_pod a), (critical_pod b),
           (Priority (Spec a)) as [pa |], (Priority (Spec b)) as [pb |];
    cbn; rewrite ?gtb_decide; repeat case_bool_decide;
    split_cases; close_case.
Qed.

End PolicyClaims.

(** ** [nil] pods

    The [nil] checks of [Preemptable] come after [IsCriticalPod] has read
    the preemptor, so they only ever see a [nil] preemptee. *)

Lemma IsCriticalPod_nil `{consts : Imported} : IsCriticalPod None = Panic.
Proof. reflexivity. Qed.

Lemma Preemptable_nil_preemptor `{consts : Imported} (preemptee : ptr Pod) :
  Preemptable None preemptee = Panic.
Proof. reflexivity. Qed.

Lemma Preemptable_nil_preemptee `{consts : Imported} (preemptor : Pod) :
  Preemptable (Some preemptor) None =
  if critical_pod preemptor then Panic else Return false.
Proof.
  unfold Preemptable. rewrite IsCriticalPod_Some. cbn.
  destruct (critical_pod preemptor); reflexivity.
Qed.

(** ** The claims on the sample values *)

(** C1, as stated, fails: a static pod of priority 0 and an API-server pod
    of priority 100 may each preempt the other, the first by criticality
    and the second by priority. *)
Lemma file_pod_and_api_pod_preempt_each_other :
  file_pod <> api_pod /\
  ~ not_both_preemptable (consts := kubernetes) file_pod api_pod.
Proof.
  split; [discriminate |].
  unfold not_both_preemptable. intros H. apply H.
  split; vm_compute; reflexivity.
Qed.


Lemma Preemptable_both_ways_witness :
  ~ (Preemptable (consts := kubernetes) (Some api_pod) (Some bare_pod)
       = Return true /\
     Preemptable (consts := kubernetes) (Some bare_pod) (Some api_pod)
       = Return true).
Proof.
  destruct (Preemptable_both_ways (consts := kubernetes) api_pod bare_pod)
    as (ca & cb & ab & ba & _ & _ & Hab & Hba & _ & Hnever & _).
  rewrite Hab, Hba. intros [E1 E2].
  apply Hnever; [right; right; reflexivity |].
  split; congruence.
Defined.

Lemma IsCriticalPod_disjunction_witness :
  IsCriticalPod (consts := kubernetes) (Some mirror_of_file_pod)
    = Return true /\
  IsCriticalPodBasedOnPriority (consts := kubernetes) 0 = false.
Proof.
  destruct (IsCriticalPod_disjunction (consts := kubernetes) mirror_of_file_pod)
    as (static & mirror & _ & _ & _ & Hmirror & Hlow).
  split.
  - apply (Hmirror
             (<[@ConfigMirrorAnnotationKey kubernetes := "5f3a"]>
                {[ConfigSourceAnnotationKey := "api"]}) "5f3a");
      reflexivity.
  - apply Hlow. reflexivity.
Defined.

Lemma IsStaticPod_iff_source_not_api_witness :
  GetPodSource (Some bare_pod) =
    Return ("", Some (Errorf "cannot get source of pod %q" "bare")) /\
  IsStaticPod (Some bare_pod) = Return false.
Proof.
  destruct (IsStaticPod_iff_source_not_api bare_pod)
    as (static & Hstatic & _ & Hfail).
  destruct Hfail as [Hsrc ->]; [left; reflexivity |].
  split; [exact Hsrc | exact Hstatic].
Defined.

Lemma IsStaticPod_any_other_value_witness :
  IsStaticPod (Some (odd_source_pod "")) = Return true /\
  IsStaticPod (Some (odd_source_pod "bogus")) = Return true.
Proof.
  split.
  - apply (IsStaticPod_any_other_value (odd_source_pod "")
             {[ConfigSourceAnnotationKey := ""]} "");
      [reflexivity | reflexivity | discriminate].
  - apply (IsStaticPod_any_other_value (odd_source_pod "bogus")
             {[ConfigSourceAnnotationKey := "bogus"]} "bogus");
      [reflexivity | reflexivity | discriminate].
Defined.

Lemma IsNodeCriticalPod_conjunction_witness :
  IsNodeCriticalPod (consts := kubernetes) (Some node_critical_pod)
    = Return true /\
  IsCriticalPod (consts := kubernetes) (Some node_critical_pod)
    = Return true.
Proof.
  destruct (IsNodeCriticalPod_conjunction (consts := kubernetes) node_critical_pod)
    as (critical & _ & _ & Himp & _).
  assert (E : IsNodeCriticalPod (consts := kubernetes)
                (Some node_critical_pod) = Return true)
    by (vm_compute; reflexivity).
  split; [exact E | exact (Himp E)].
Defined.

(** ** Source validation: every outcome of the loop *)

Lemma concrete_source_not_empty (s : string) :
  concrete_source s -> String.eqb s "" = false.
Proof. intros [-> | [-> | ->]]; reflexivity. Qed.

Lemma non_empty_sources_concrete (s : string) (l : list string) :
  concrete_source s -> non_empty_sources (s :: l) = s :: non_empty_sources l.
Proof.
  intros Hs. unfold non_empty_sources. cbn [List.filter].
  now rewrite (concrete_source_not_empty s Hs).
Qed.

Lemma non_empty_sources_passed (l : list string) :
  Forall passed_source l -> Forall concrete_source (non_empty_sources l).
Proof.
  induction 1 as [| s l [Hs | ->] _ IH]; [constructor | |].
  - rewrite (non_empty_sources_concrete s l Hs). now constructor.
  - exact IH.
Qed.

(** The loop stops at the first wildcard or unknown name; when there is
    none it returns the accumulator followed by the names it kept. *)
Lemma loop_outcome (sources : list string) :
  forall validated,
    (Forall passed_source sources /\
     GetValidatedSources_loop validated sources =
     (validated ++ non_empty_sources sources, None)) \/
    (exists pre rest,
       sources = pre ++ AllSource :: rest /\ Forall passed_source pre /\
       GetValidatedSources_loop validated sources = (all_sources, None)) \/
    (exists pre s rest,
       sources = pre ++ s :: rest /\ Forall passed_source pre /\
       unknown_source s /\
       GetValidatedSources_loop validated sources =
       ([], Some (unknown_source_error s))).
Proof.
  induction sources as [| s l IH]; intros validated.
  - left. split; [constructor |]. cbn. now rewrite app_nil_r.
  - destruct (source_cases s) as [-> | [Hc | [-> | Hu]]].
    + right; left. exists [], l. repeat split. constructor.
    + rewrite (loop_concrete validated s l Hc).
      destruct (IH (validated ++ [s]))
        as [[Hp E] | [(pre & rest & -> & Hp & E)
                     | (pre & u & rest & -> & Hp & Hu & E)]].
      * left. split; [constructor; [now left | exact Hp] |].
        rewrite E, (non_empty_sources_concrete s l Hc), <- app_assoc.
        reflexivity.
      * right; left. exists (s :: pre), rest.
        split; [reflexivity |]. split; [| exact E].
        constructor; [now left | exact Hp].
      * right; right. exists (s :: pre), u, rest.
        split; [reflexivity |]. split; [| split; [exact Hu | exact E]].
        constructor; [now left | exact Hp].
    + rewrite loop_empty.
      destruct (IH validated)
        as [[Hp E] | [(pre & rest & -> & Hp & E)
                     | (pre & u & rest & -> & Hp & Hu & E)]].
      * left. split; [constructor; [now right | exact Hp] | exact E].
      * right; left. exists ("" :: pre), rest.
        split; [reflexivity |]. split; [| exact E].
        constructor; [now right | exact Hp].
      * right; right. exists ("" :: pre), u, rest.
        split; [reflexivity |]. split; [| split; [exact Hu | exact E]].
        constructor; [now right | exact Hp].
    + right; right. exists [], s, l.
      split; [reflexivity |]. split; [constructor |].
      split; [exact Hu | apply loop_unknown, Hu].
Qed.

Lemma validated_sources_concrete (sources : list string) :
  Forall concrete_source (GetValidatedSources sources).1.
Proof.
  unfold GetValidatedSources.
  destruct (loop_outcome sources [])
    as [[Hp E] | [(pre & rest & _ & _ & E) | (pre & u & rest & _ & _ & _ & E)]];
    rewrite E; cbn [fst].
  - apply (non_empty_sources_passed sources Hp).
  - unfold all_sources. repeat constructor; classify_source.
  - constructor.
Qed.

(** X1: whatever the input, each element of the sequence that
    [GetValidatedSources] returns is "file", "http" or "api": the result
    holds no wildcard, no empty string and no unknown name. *)
Theorem GetValidatedSources_result_concrete (sources : list string) (s : string) :
  In s (GetValidatedSources sources).1 ->
  s = "file" \/ s = "http" \/ s = "api".
Proof.
  intros Hin.
  pose proof (validated_sources_concrete sources) as H.
  rewrite List.Forall_forall in H. exact (H s Hin).
Qed.

Lemma GetValidatedSources_result_concrete_witness :
  In "http" (GetValidatedSources [""; "http"; "api"]).1 /\
  ("http" = "file" \/ "http" = "http" \/ "http" = "api").
Proof.
  assert (Hin : In "http" (GetValidatedSources [""; "http"; "api"]).1)
    by (left; reflexivity).
  split; [exact Hin |].
  exact (GetValidatedSources_result_concrete [""; "http"; "api"] "http" Hin).
Defined.

(** X2: validation is idempotent: a sequence that [GetValidatedSources]
    returned without an error is returned unchanged, again without an
    error, when it is validated once more. *)
Theorem GetValidatedSources_idempotent (sources validated : list string) :
  GetValidatedSources sources = (validated, None) ->
  GetValidatedSources validated = (validated, None).
Proof.
  intros E. pose proof (validated_sources_concrete sources) as H.
  rewrite E in H. apply (loop_all_concrete validated H []).
Qed.

Lemma GetValidatedSources_idempotent_witness :
  GetValidatedSources ["api"; ""; "api"; "file"] = (["api"; "api"; "file"], None) /\
  GetValidatedSources ["api"; "api"; "file"] = (["api"; "api"; "file"], None).
Proof.
  assert (E : GetValidatedSources ["api"; ""; "api"; "file"] =
              (["api"; "api"; "file"], None)) by reflexivity.
  split; [exact E |].
  exact (GetValidatedSources_idempotent _ _ E).
Defined.

(** X3: every call has one of three outcomes, decided by the first element
    that is neither a concrete source name nor the empty string: there is
    none, and the input without its empty strings is returned; or it is
    the wildcard, and [file; http; api] is returned; or it is an unknown
    name, and the empty sequence is returned with the error naming it. *)
Theorem GetValidatedSources_outcome (sources : list string) :
  (Forall passed_source sources /\
   GetValidatedSources sources = (non_empty_sources sources, None)) \/
  (exists pre rest,
     sources = pre ++ AllSource :: rest /\ Forall passed_source pre /\
     GetValidatedSources sources =
     ([FileSource; HTTPSource; ApiserverSource], None)) \/
  (exists pre s rest,
     sources = pre ++ s :: rest /\ Forall passed_source pre /\
     unknown_source s /\
     GetValidatedSources sources =
     ([], Some (Errorf "unknown pod source %q" s))).
Proof. exact (loop_outcome sources []). Qed.

(** X4: [GetValidatedSources] returns the error [e] exactly when some
    unknown name [s] of the input has only concrete names and empty
    strings in front of it and [e] is the error naming [s]; whenever the
    error is not [nil] the returned sequence is empty. *)
Theorem GetValidatedSources_error_iff (sources : list string) (e : error) :
  ((GetValidatedSources sources).2 = Some e <->
   exists pre s rest,
     sources = pre ++ s :: rest /\ Forall passed_source pre /\
     unknown_source s /\ e = Errorf "unknown pod source %q" s) /\
  ((GetValidatedSources sources).2 <> None ->
   (GetValidatedSources sources).1 = []).
Proof.
  unfold GetValidatedSources. split; [split |].
  - intros He.
    destruct (loop_outcome sources [])
      as [[_ E] | [(pre & rest & _ & _ & E)
                  | (pre & u & rest & Hl & Hp & Hu & E)]];
      rewrite E in He; cbn [snd] in He; try discriminate He.
    injection He as <-. exists pre, u, rest.
    split; [exact Hl |]. split; [exact Hp |]. split; [exact Hu | reflexivity].
  - intros (pre & s & rest & -> & Hp & Hu & ->).
    now rewrite (loop_reaches_unknown pre s Hp Hu [] rest).
  - intros Hne.
    destruct (loop_outcome sources [])
      as [[_ E] | [(pre & rest & _ & _ & E)
                  | (pre & u & rest & _ & _ & _ & E)]];
      rewrite E in *; cbn [fst snd] in *; [contradiction | contradiction |].
    reflexivity.
Qed.

Lemma GetValidatedSources_error_iff_witness :
  (GetValidatedSources ["file"; "ftp"; "*"]).2 =
    Some (Errorf "unknown pod source %q" "ftp") /\
  (GetValidatedSources ["file"; "ftp"; "*"]).1 = [].
Proof.
  pose proof (GetValidatedSources_error_iff ["file"; "ftp"; "*"]
                (Errorf "unknown pod source %q" "ftp")) as [[_ Hback] Hempty].
  assert (E : (GetValidatedSources ["file"; "ftp"; "*"]).2 =
              Some (Errorf "unknown pod source %q" "ftp")).
  { apply Hback. exists ["file"], "ftp", ["*"].
    split; [reflexivity |]. split; [classify_sources |].
    split; [classify_source | reflexivity]. }
  split; [exact E |]. apply Hempty. rewrite E. discriminate.
Defined.

Lemma loop_passed (sources : list string) :
  Forall passed_source sources ->
  forall validated,
    GetValidatedSources_loop validated sources =
    (validated ++ non_empty_sources sources, None).
Proof.
  induction 1 as [| s l [Hs | ->] _ IH]; intros validated.
  - cbn. now rewrite app_nil_r.
  - rewrite (loop_concrete validated s l Hs), IH,
      (non_empty_sources_concrete s l Hs), <- app_assoc.
    reflexivity.
  - rewrite loop_empty. apply IH.
Qed.

(** X5: when every element of the input is "file", "http", "api" or the
    empty string, [GetValidatedSources] returns, without an error, the
    input with its empty strings removed: order and duplicates are kept. *)
Theorem GetValidatedSources_removes_empty (sources : list string) :
  Forall passed_source sources ->
  GetValidatedSources sources =
  (List.filter (fun s => negb (String.eqb s "")) sources, None).
Proof. intros H. apply (loop_passed sources H []). Qed.

Lemma GetValidatedSources_removes_empty_witness :
  Forall passed_source [""; "http"; ""; "http"; "file"] /\
  GetValidatedSources [""; "http"; ""; "http"; "file"] =
  (["http"; "http"; "file"], None).
Proof.
  split; [classify_sources |].
  apply (GetValidatedSources_removes_empty [""; "http"; ""; "http"; "file"]).
  classify_sources.
Defined.

(** ** Provenance: annotations written and read back *)

(** X6: [GetPodSource] reads back the value stored under the source key
    and nothing else: after the key is set it returns that value with a
    [nil] error; after the key is deleted, and likewise on a [nil] or an
    empty map, it returns the error; an entry under any other key leaves
    its result as it was. *)
Theorem GetPodSource_round_trip
    (p : Pod) (m : gmap string string) (k v source : string) :
  GetPodSource
    (Some (with_annotations p (Some (<[ConfigSourceAnnotationKey := source]> m))))
    = Return (source, None) /\
  GetPodSource
    (Some (with_annotations p (Some (delete ConfigSourceAnnotationKey m))))
    = Return ("", Some (Errorf "cannot get source of pod %q" (UID p))) /\
  GetPodSource (Some (with_annotations p None))
    = Return ("", Some (Errorf "cannot get source of pod %q" (UID p))) /\
  GetPodSource (Some (with_annotations p (Some ∅)))
    = Return ("", Some (Errorf "cannot get source of pod %q" (UID p))) /\
  (k <> ConfigSourceAnnotationKey ->
   GetPodSource (Some (with_annotations p (Some (<[k := v]> m))))
   = GetPodSource (Some (with_annotations p (Some m)))).
Proof.
  rewrite !GetPodSource_Some. unfold source_annotation, source_error.
  cbn [with_annotations Annotations UID].
  rewrite lookup_insert_eq, lookup_delete_eq, lookup_empty.
  repeat (split; [reflexivity |]).
  intros Hk. now rewrite lookup_insert_ne.
Qed.

Lemma GetPodSource_round_trip_witness :
  ConfigHashAnnotationKey <> ConfigSourceAnnotationKey /\
  GetPodSource
    (Some (with_annotations file_pod
             (Some (<[ConfigHashAnnotationKey := "9c1e"]>
                      {[ConfigSourceAnnotationKey := "file"]}))))
  = GetPodSource
      (Some (with_annotations file_pod
               (Some {[ConfigSourceAnnotationKey := "file"]}))).
Proof.
  assert (Hk : ConfigHashAnnotationKey <> ConfigSourceAnnotationKey)
    by discriminate.
  split; [exact Hk |].
  apply (GetPodSource_round_trip file_pod
           {[ConfigSourceAnnotationKey := "file"]}
           ConfigHashAnnotationKey "9c1e" ""), Hk.
Defined.

(** X8: a pod whose source annotation is one of the names that
    [GetValidatedSources] returned is static exactly when that name is
    "file" or "http". *)
Theorem IsStaticPod_validated_source
    (sources : list string) (p : Pod) (m : gmap string string) (s : string) :
  In s (GetValidatedSources sources).1 ->
  Annotations p = Some m ->
  m !! ConfigSourceAnnotationKey = Some s ->
  (IsStaticPod (Some p) = Return true <->
   s = FileSource \/ s = HTTPSource).
Proof.
  intros Hin Ha Hs.
  pose proof (validated_sources_concrete sources) as Hc.
  rewrite List.Forall_forall in Hc. specialize (Hc s Hin).
  rewrite IsStaticPod_Some. unfold static_pod, source_annotation.
  rewrite Ha, Hs. destruct Hc as [-> | [-> | ->]]; cbn.
  - split; [intros _; now left | reflexivity].
  - split; [intros _; now right | reflexivity].
  - split; [discriminate | intros [E | E]; discriminate E].
Qed.

Lemma IsStaticPod_validated_source_witness :
  In "file" (GetValidatedSources ["*"]).1 /\
  IsStaticPod (Some file_pod) = Return true.
Proof.
  assert (Hin : In "file" (GetValidatedSources ["*"]).1) by (left; reflexivity).
  split; [exact Hin |].
  apply (IsStaticPod_validated_source ["*"] file_pod
           {[ConfigSourceAnnotationKey := "file"]} "file" Hin);
    [reflexivity | reflexivity | left; reflexivity].
Defined.

Section PolicyExtras.

Context `{consts : Imported}.

(** X7: [IsMirrorPod] looks at the presence of the mirror key only: with
    the key set to any value it returns [true]; with the key deleted, on a
    [nil] map and on an empty map it returns [false]; an entry under any
    other key leaves its result as it was. *)
Theorem IsMirrorPod_presence_only
    (p : Pod) (m : gmap string string) (k v : string) :
  IsMirrorPod
    (Some (with_annotations p (Some (<[ConfigMirrorAnnotationKey := v]> m))))
    = Return true /\
  IsMirrorPod
    (Some (with_annotations p (Some (delete ConfigMirrorAnnotationKey m))))
    = Return false /\
  IsMirrorPod (Some (with_annotations p None)) = Return false /\
  IsMirrorPod (Some (with_annotations p (Some ∅))) = Return false /\
  (k <> ConfigMirrorAnnotationKey ->
   IsMirrorPod (Some (with_annotations p (Some (<[k := v]> m))))
   = IsMirrorPod (Some (with_annotations p (Some m)))).
Proof.
  rewrite !IsMirrorPod_Some. unfold mirror_pod, mirror_annotation.
  cbn [with_annotations Annotations].
  rewrite lookup_insert_eq, lookup_delete_eq, lookup_empty.
  repeat (split; [reflexivity |]).
  intros Hk. now rewrite lookup_insert_ne.
Qed.

Lemma critical_pod_with_priority (p : Pod) (x : Z) :
  critical_pod (with_priority p (Some x)) =
  static_pod p || mirror_pod p || (x >=? SystemCriticalPriority).
Proof. reflexivity. Qed.

(** X9: criticality is monotone in the priority: if a pod with priority
    [x] is critical, the same pod with any priority [y >= x] is critical. *)
Theorem IsCriticalPod_monotone (p : Pod) (x y : Z) :
  x <= y ->
  IsCriticalPod (Some (with_priority p (Some x))) = Return true ->
  IsCriticalPod (Some (with_priority p (Some y))) = Return true.
Proof.
  intros Hxy. rewrite !IsCriticalPod_Some, !critical_pod_with_priority.
  intros E. injection E as E. f_equal.
  destruct (static_pod p || mirror_pod p); [reflexivity |].
  cbn in *. rewrite Z.geb_leb in *. apply Z.leb_le. apply Z.leb_le in E. lia.
Qed.

Lemma Preemptable_same (p : Pod) :
  Preemptable (Some p) (Some p) = Return false.
Proof.
  rewrite Preemptable_Some. unfold compare_priority.
  destruct (critical_pod p); cbn;
    (destruct (Priority (Spec p)) as [x |]; [| reflexivity]);
    f_equal; rewrite Z.gtb_ltb; apply Z.ltb_irrefl.
Qed.

(** X10: no pod may preempt itself: [Preemptable p p] is [false]. *)
Theorem Preemptable_irreflexive (p : Pod) :
  Preemptable (Some p) (Some p) = Return false.
Proof. exact (Preemptable_same p). Qed.

End PolicyExtras.

(** ** Preemption as a relation *)

(** Turning the comparisons of a goal and its hypotheses into [Z] facts. *)
Ltac priority_facts :=
  repeat match goal with
         | H : Return _ = Return _ |- _ => injection H as H
         | H : (_ >? _) = true |- _ => rewrite Z.gtb_ltb in H; apply Z.ltb_lt in H
         | H : (_ >=? _) = true |- _ => rewrite Z.geb_leb in H; apply Z.leb_le in H
         | H : (_ >=? _) = false |- _ => rewrite Z.geb_leb in H; apply Z.leb_gt in H
         | |- Return _ = Return _ => f_equal
         | |- (_ >? _) = true => rewrite Z.gtb_ltb; apply Z.ltb_lt
         | |- (_ >? _) = false => rewrite Z.gtb_ltb; apply Z.ltb_ge
         | |- (_ >=? _) = true => rewrite Z.geb_leb; apply Z.leb_le
         end.

Section PreemptionOrder.

Context `{consts : Imported}.


(** X12: raising the preemptor's priority, or lowering the preemptee's,
    never takes a preemption right away. *)
Theorem Preemptable_monotone_in_priority (a b : Pod) (x y : Z) :
  x <= y ->
  (Preemptable (Some (with_priority a (Some x))) (Some b) = Return true ->
   Preemptable (Some (with_priority a (Some y))) (Some b) = Return true) /\
  (Preemptable (Some a) (Some (with_priority b (Some y))) = Return true ->
   Preemptable (Some a) (Some (with_priority b (Some x))) = Return true).
Proof.
  intros Hxy. rewrite !Preemptable_Some, !critical_pod_with_priority.
  unfold compare_priority. cbn [with_priority Spec Priority].
  destruct (x >=? SystemCriticalPriority) eqn:Ex,
           (y >=? SystemCriticalPriority) eqn:Ey;
    (split;
     [ destruct (static_pod a || mirror_pod a), (critical_pod b),
                (Priority (Spec b)) as [pb |]
     | destruct (critical_pod a), (static_pod b || mirror_pod b),
                (Priority (Spec a)) as [pa |] ]);
    cbn; intros H; try reflexivity; try discriminate H;
    priority_facts; lia.
Qed.

(** X13: a critical pod whose priority is not set is never preempted,
    whoever the preemptor is. *)
Theorem critical_pod_without_priority_is_kept (preemptor preemptee : Pod) :
  IsCriticalPod (Some preemptee) = Return true ->
  Priority (Spec preemptee) = None ->
  Preemptable (Some preemptor) (Some preemptee) = Return false.
Proof.
  rewrite IsCriticalPod_Some, Preemptable_Some. unfold compare_priority.
  intros Hc ->. injection Hc as ->. rewrite andb_false_r.
  destruct (Priority (Spec preemptor)); reflexivity.
Qed.

(** X14: a pod that is not critical and whose priority is not set never
    preempts: [Preemptable] returns [false] for every preemptee, the
    [nil] one included. *)
Theorem plain_pod_without_priority_never_preempts
    (preemptor : Pod) (preemptee : ptr Pod) :
  IsCriticalPod (Some preemptor) = Return false ->
  Priority (Spec preemptor) = None ->
  Preemptable (Some preemptor) preemptee = Return false.
Proof.
  rewrite IsCriticalPod_Some. intros Hc Hp. injection Hc as Hc.
  destruct preemptee as [e |].
  - rewrite Preemptable_Some. unfold compare_priority.
    now rewrite Hc, Hp.
  - now rewrite Preemptable_nil_preemptee, Hc.
Qed.

(** X15: the [nil] checks of [Preemptable] do not make it safe on [nil]:
    a [nil] preemptor always panics; a [nil] preemptee panics when the
    preemptor is critical, and gives [false] when it is not. *)
Theorem Preemptable_nil (preemptor : Pod) (preemptee : ptr Pod) :
  Preemptable None preemptee = Panic /\
  (IsCriticalPod (Some preemptor) = Return true ->
   Preemptable (Some preemptor) None = Panic) /\
  (IsCriticalPod (Some preemptor) = Return false ->
   Preemptable (Some preemptor) None = Return false).
Proof.
  split; [reflexivity |].
  rewrite IsCriticalPod_Some, Preemptable_nil_preemptee.
  split; intros E; injection E as ->; reflexivity.
Qed.

End PreemptionOrder.

(** ** Sync intent and init containers *)

(** X16: the four names are pairwise distinct, so a rendering other than
    "unknown" determines the [SyncPodType]; and the rendering is
    "unknown" exactly on the values below [SyncPodSync] or above
    [SyncPodKill]. *)
Theorem SyncPodType_String_injective (sp1 sp2 : SyncPodType) :
  (SyncPodType_String sp1 = "unknown" <->
   sp1 < SyncPodSync \/ SyncPodKill < sp1) /\
  (SyncPodType_String sp1 = SyncPodType_String sp2 ->
   SyncPodType_String sp1 <> "unknown" ->
   sp1 = sp2).
Proof.
  unfold SyncPodType_String, SyncPodSync, SyncPodUpdate, SyncPodCreate,
    SyncPodKill.
  split.
  - destruct (Z.eqb_spec sp1 2); [split; [discriminate | lia] |].
    destruct (Z.eqb_spec sp1 1); [split; [discriminate | lia] |].
    destruct (Z.eqb_spec sp1 0); [split; [discriminate | lia] |].
    destruct (Z.eqb_spec sp1 3); [split; [discriminate | lia] |].
    split; [lia | reflexivity].
  - destruct (Z.eqb_spec sp1 2), (Z.eqb_spec sp1 1), (Z.eqb_spec sp1 0),
             (Z.eqb_spec sp1 3), (Z.eqb_spec sp2 2), (Z.eqb_spec sp2 1),
             (Z.eqb_spec sp2 0), (Z.eqb_spec sp2 3);
      intros E Hne; try discriminate E; try lia; contradiction.
Qed.

Lemma SyncPodType_String_injective_witness :
  SyncPodType_String 3 = SyncPodType_String SyncPodKill /\
  3 = SyncPodKill.
Proof.
  assert (E : SyncPodType_String 3 = SyncPodType_String SyncPodKill)
    by reflexivity.
  split; [exact E |].
  apply (proj2 (SyncPodType_String_injective 3 SyncPodKill) E). discriminate.
Defined.

(** X17: [IsRestartableInitContainer] panics on a [nil] container, returns
    [false] when the restart policy is not set, and returns [true] exactly
    when the policy is set to [ContainerRestartPolicyAlways]. *)
Theorem IsRestartableInitContainer_cases (always : string) (c : Container) :
  IsRestartableInitContainer always None = Panic /\
  (RestartPolicy c = None ->
   IsRestartableInitContainer always (Some c) = Return false) /\
  (IsRestartableInitContainer always (Some c) = Return true <->
   RestartPolicy c = Some always).
Proof.
  unfold IsRestartableInitContainer. cbn.
  split; [reflexivity |]. split; [intros ->; reflexivity |].
  destruct (RestartPolicy c) as [policy |].
  - rewrite eqb_decide. split.
    + intros E. injection E as E. apply bool_decide_eq_true_1 in E.
      now subst.
    + intros E. injection E as ->. now rewrite bool_decide_eq_true_2.
  - split; discriminate.
Qed.

Lemma IsRestartableInitContainer_cases_witness :
  RestartPolicy (mkContainer None) = None /\
  IsRestartableInitContainer "Always" (Some (mkContainer None)) = Return false.
Proof.
  split; [reflexivity |].
  apply (proj1 (proj2 (IsRestartableInitContainer_cases "Always"
                         (mkContainer None)))).
  reflexivity.
Defined.

(** ** The further statements on the sample values *)

Lemma IsMirrorPod_presence_only_witness :
  ConfigSourceAnnotationKey <> @ConfigMirrorAnnotationKey kubernetes /\
  IsMirrorPod (consts := kubernetes)
    (Some (with_annotations api_pod
             (Some (<[ConfigSourceAnnotationKey := "api"]> ∅))))
  = IsMirrorPod (consts := kubernetes)
      (Some (with_annotations api_pod (Some ∅))).
Proof.
  assert (Hk : ConfigSourceAnnotationKey <> @ConfigMirrorAnnotationKey kubernetes)
    by discriminate.
  split; [exact Hk |].
  apply (IsMirrorPod_presence_only (consts := kubernetes) api_pod ∅
           ConfigSourceAnnotationKey "api"), Hk.
Defined.

Lemma IsCriticalPod_monotone_witness :
  IsCriticalPod (consts := kubernetes)
    (Some (with_priority api_pod (Some 2000000007))) = Return true.
Proof.
  apply (IsCriticalPod_monotone (consts := kubernetes) api_pod
           2000000000 2000000007); [lia | reflexivity].
Defined.


Lemma Preemptable_monotone_in_priority_witness :
  Preemptable (consts := kubernetes)
    (Some (with_priority api_pod (Some 200))) (Some file_pod) = Return true.
Proof.
  apply (proj1 (Preemptable_monotone_in_priority (consts := kubernetes)
                  api_pod file_pod 100 200 ltac:(lia))).
  reflexivity.
Defined.

Lemma critical_pod_without_priority_is_kept_witness :
  Preemptable (consts := kubernetes)
    (Some node_critical_pod) (Some (with_priority file_pod None))
  = Return false.
Proof.
  apply (critical_pod_without_priority_is_kept (consts := kubernetes)
           node_critical_pod (with_priority file_pod None));
    reflexivity.
Defined.

Lemma plain_pod_without_priority_never_preempts_witness :
  Preemptable (consts := kubernetes) (Some bare_pod) (Some api_pod)
    = Return false /\
  Preemptable (consts := kubernetes) (Some bare_pod) None = Return false.
Proof.
  split;
    apply (plain_pod_without_priority_never_preempts (consts := kubernetes));
    reflexivity.
Defined.

Lemma Preemptable_nil_witness :
  Preemptable (consts := kubernetes) (Some file_pod) None = Panic /\
  Preemptable (consts := kubernetes) (Some api_pod) None = Return false.
Proof.
  split.
  - apply (proj1 (proj2 (Preemptable_nil (consts := kubernetes) file_pod None))).
    reflexivity.
  - apply (proj2 (proj2 (Preemptable_nil (consts := kubernetes) api_pod None))).
    reflexivity.
Defined.
